(** * The login handler of backend/app.py

    A shallow embedding of the [login] route ([POST /api/login]) and of the
    collaborators it talks to: the parsed request body, the MySQL cursor
    and the [users] table behind it.  The handler is effectful (it opens a
    cursor, runs a statement, closes the cursor) and fallible (a subscript
    may raise), so it lives in a state-and-exception monad over a [world]
    that holds the database, the cursors handed out so far and the
    statements that reached the server. *)

From Stdlib Require Import ZArith.
From stdpp Require Import gmap strings list fin_maps.

Set Warnings "-register-all".

Local Open Scope Z_scope.
Local Open Scope string_scope.

(** ** Python values

    What [request.json] can hold and what a fetched row can hold.  JSON
    numbers are integers here; a JSON object is a [dict] keyed by
    strings. *)
Inductive value : Type :=
  | VNone
  | VBool (b : bool)
  | VInt (z : Z)
  | VStr (s : string)
  | VList (l : list value)
  | VDict (d : gmap string value).

(** A row as [fetchone] hands it over: a tuple of column values. *)
Abbreviation row := (list value).

(** The exceptions that can leave the handler. *)
Inductive exn : Type :=
  | KeyError (k : string)
  | TypeError
  | IndexError
  | ProgrammingError
  | OperationalError.

(** ** The store *)

(** A table: its column names in declaration order (the order in which
    [SELECT *] lays a row out) and its rows in the order in which the
    server scans them. *)
Record table : Type := Table {
  columns : list string;
  rows : list row
}.

(** The database behind [mysql.connection]: its tables by name and the
    server's [=] operator, [sql_eq column_value bound_value], which says
    when a comparison in a WHERE clause is true.  The operator belongs to
    the server (collation, NULL handling), not to app.py. *)
Record database : Type := Database {
  tables : gmap string table;
  sql_eq : value → value → bool
}.

(** A cursor: the rows of its last statement not fetched yet, and whether
    [close] has been called on it. *)
Record cursor_state : Type := Cursor {
  pending : list row;
  closed : bool
}.

(** Everything the handler can read or change.  Cursors are named by their
    position in [cursors]; [statements] records each statement text the
    server received together with the values bound to it, oldest first. *)
Record world : Type := World {
  db : database;
  cursors : list cursor_state;
  statements : list (string * list value)
}.

(** ** The handler monad: state plus exceptions *)

Inductive outcome (A : Type) : Type :=
  | Returns (a : A) (w : world)
  | Raises (e : exn) (w : world).
Arguments Returns {A} a w.
Arguments Raises {A} e w.

Definition handler (A : Type) : Type := world → outcome A.

#[global] Instance handler_ret : MRet handler :=
  λ A a w, Returns a w.

#[global] Instance handler_bind : MBind handler :=
  λ A B f m w,
    match m w with
    | Returns a w' => f a w'
    | Raises e w' => Raises e w'
    end.

Definition raise {A : Type} (e : exn) : handler A :=
  λ w, Raises e w.

(** What the caller of the handler sees, and the world it is left with. *)
Definition reply {A : Type} (o : outcome A) : option A :=
  match o with
  | Returns a _ => Some a
  | Raises _ _ => None
  end.

Definition fault {A : Type} (o : outcome A) : option exn :=
  match o with
  | Returns _ _ => None
  | Raises e _ => Some e
  end.

Definition final {A : Type} (o : outcome A) : world :=
  match o with
  | Returns _ w => w
  | Raises _ w => w
  end.

(** ** Subscripts and truth *)

(** [obj[key]] with a string key: a dict looks the key up and raises
    [KeyError] when it is absent; nothing else accepts a string
    subscript. *)
Definition getitem (obj : value) (key : string) : handler value :=
  match obj with
  | VDict d =>
      match d !! key with
      | Some v => mret v
      | None => raise (KeyError key)
      end
  | _ => raise TypeError
  end.

(** [user[i]] on what [fetchone] returned: a tuple is indexed, with
    [IndexError] out of range; [None] is not subscriptable. *)
Definition item (user : option row) (i : nat) : handler value :=
  match user with
  | Some r =>
      match r !! i with
      | Some v => mret v
      | None => raise IndexError
      end
  | None => raise TypeError
  end.

(** [if user:] is taken for a non-empty tuple; [None] and [()] are
    false. *)
Definition truthy (user : option row) : bool :=
  match user with
  | Some (_ :: _) => true
  | _ => false
  end.

(** ** The server's side of [execute] *)

Fixpoint column_index (c : string) (cols : list string) : option nat :=
  match cols with
  | [] => None
  | x :: xs => if String.eqb x c then Some 0%nat else S <$> column_index c xs
  end.

(** [col = %s] on one row, with [a] bound to the placeholder. *)
Definition holds (eq : value → value → bool) (r : row) (i : nat) (a : value) : bool :=
  match r !! i with
  | Some v => eq v a
  | None => false
  end.

(** [SELECT * FROM t WHERE c1 = %s AND c2 = %s]: the rows of [t], in scan
    order, on which both comparisons are true. *)
Definition select_where (eq : value → value → bool) (t : table)
    (c1 : string) (a1 : value) (c2 : string) (a2 : value) : exn + list row :=
  match column_index c1 (columns t), column_index c2 (columns t) with
  | Some i1, Some i2 =>
      inr (List.filter (λ r, holds eq r i1 a1 && holds eq r i2 a2) (rows t))
  | _, _ => inl OperationalError
  end.

(** The text of the statement [login] sends. *)
Definition login_sql : string :=
  "SELECT * FROM users WHERE username = %s AND password = %s".

(** What the server does with a statement text and the values bound to
    its placeholders.  The handler sends one text only; the model knows
    that statement and rejects any other. *)
Definition run_statement (d : database) (sql : string) (args : list value)
    : exn + list row :=
  if String.eqb sql login_sql then
    match args with
    | [a1; a2] =>
        match tables d !! "users" with
        | Some t => select_where (sql_eq d) t "username" a1 "password" a2
        | None => inl ProgrammingError
        end
    | _ => inl ProgrammingError
    end
  else inl ProgrammingError.

(** ** The cursor interface *)

(** [mysql.connection.cursor()]: a fresh open cursor. *)
Definition cursor : handler nat :=
  λ w, Returns (length (cursors w))
         (World (db w) (cursors w ++ [Cursor [] false])%list (statements w)).

(** [cur.execute(sql, args)]: the text and the bound values go to the
    server as they are; the rows that come back wait in the cursor. *)
Definition execute (cur : nat) (sql : string) (args : list value) : handler unit :=
  λ w,
    match cursors w !! cur with
    | Some (Cursor _ false) =>
        let sent := (statements w ++ [(sql, args)])%list in
        match run_statement (db w) sql args with
        | inr rs => Returns tt (World (db w) (<[cur := Cursor rs false]> (cursors w)) sent)
        | inl e => Raises e (World (db w) (cursors w) sent)
        end
    | _ => Raises ProgrammingError w
    end.

(** [cur.fetchone()]: the next pending row, or [None]. *)
Definition fetchone (cur : nat) : handler (option row) :=
  λ w,
    match cursors w !! cur with
    | Some (Cursor (r :: rs) false) =>
        Returns (Some r) (World (db w) (<[cur := Cursor rs false]> (cursors w)) (statements w))
    | Some (Cursor [] false) => Returns None w
    | _ => Raises ProgrammingError w
    end.

(** [cur.close()]: drops what is pending and marks the cursor closed. *)
Definition close (cur : nat) : handler unit :=
  λ w,
    match cursors w !! cur with
    | Some _ => Returns tt (World (db w) (<[cur := Cursor [] true]> (cursors w)) (statements w))
    | None => Raises ProgrammingError w
    end.

(** ** The route *)

Record request : Type := Request { json : value }.

(** [jsonify(d)]: the JSON document with the fields of [d]. *)
Definition jsonify (d : gmap string value) : value := VDict d.

(** [login()], lines 22 to 37.  The result pairs the response body with
    the HTTP status. *)
Definition login (request : request) : handler (value * Z) :=
  let creds := json request in
  cur ← cursor;
  username ← getitem creds "username";
  password ← getitem creds "password";
  execute cur login_sql [username; password];;
  user ← fetchone cur;
  close cur;;
  if truthy user then
    c0 ← item user 0;
    c1 ← item user 1;
    c3 ← item user 3;
    c4 ← item user 4;
    mret (jsonify {[ "id" := c0; "username" := c1; "role" := c3; "assignedCity" := c4 ]}, 200)
  else
    mret (jsonify ∅, 401).

(** ** Reading the model *)

(** Modelled from the spec: the declaration of the [users] table, which
    app.py uses but does not contain.  Its first five columns are
    (id, username, password, role, assignedCity), in that order, and every
    row has one value per column. *)
Definition users_columns : list string :=
  ["id"; "username"; "password"; "role"; "assignedCity"].

Definition users_schema (t : table) : Prop :=
  take 5 (columns t) = users_columns ∧
  Forall (λ r : row, length r = length (columns t)) (rows t).

(** Modelled from the spec: the comparison the MySQL server applies, which
    app.py relies on but does not contain.  "The match is a literal
    equality comparison": a column equals a bound string exactly when it
    holds that very string. *)
Definition literal_eq (d : database) : Prop :=
  ∀ (v : value) (s : string), sql_eq d v (VStr s) = true ↔ v = VStr s.

(** The invariant of the data model: no two records share a username
    (column 1). *)
Definition unique_usernames (t : table) : Prop :=
  NoDup ((λ r : row, r !! 1%nat) <$> rows t).

(** The WHERE clause of [login_sql] on one row. *)
Definition matches (d : database) (u p : value) (r : row) : bool :=
  holds (sql_eq d) r 1 u && holds (sql_eq d) r 2 p.

(** The public part of a record: columns 0, 1, 3 and 4 under the keys of
    the response. *)
Definition profile (r : row) : option (gmap string value) :=
  c0 ← r !! 0%nat;
  c1 ← r !! 1%nat;
  c3 ← r !! 3%nat;
  c4 ← r !! 4%nat;
  Some {[ "id" := c0; "username" := c1; "role" := c3; "assignedCity" := c4 ]}.

(** Lines 30 to 37: what [login] answers once it holds [user]. *)
Definition respond (user : option row) : handler (value * Z) :=
  if truthy user then
    c0 ← item user 0;
    c1 ← item user 1;
    c3 ← item user 3;
    c4 ← item user 4;
    mret (jsonify {[ "id" := c0; "username" := c1; "role" := c3; "assignedCity" := c4 ]}, 200)
  else
    mret (jsonify ∅, 401).

(** The cursor [login] opened, once it has been closed. *)
Definition released (w w' : world) : Prop :=
  cursors w' = (cursors w ++ [Cursor [] true])%list.

(** The cursor [login] opened, still open. *)
Definition leaked (w w' : world) : Prop :=
  ∃ c, cursors w' = (cursors w ++ [c])%list ∧ closed c = false.

(** ** A store to run the handler on *)

(** A server that compares strings byte for byte and integers by value;
    [NULL] equals nothing. *)
Definition sql_eq_binary (v a : value) : bool :=
  match v, a with
  | VStr x, VStr y => String.eqb x y
  | VInt x, VInt y => Z.eqb x y
  | _, _ => false
  end.

Definition alice : row :=
  [VInt 1; VStr "alice"; VStr "secret"; VStr "admin"; VStr "Lisbon"].

Definition bob : row :=
  [VInt 2; VStr "bob"; VStr "hunter2"; VStr "clerk"; VStr "Porto"].

(** A second record with alice's username and password. *)
Definition alice_twin : row :=
  [VInt 7; VStr "alice"; VStr "secret"; VStr "clerk"; VStr "Faro"].

(** A world with no cursor handed out yet, whose [users] table holds
    [records] in that scan order. *)
Definition serving (records : list row) : world :=
  World (Database {[ "users" := Table users_columns records ]} sql_eq_binary) [] [].

Definition idle : world := serving [alice; bob].

(** The JSON object with a username and a password, and the request
    whose body it is. *)
Definition fields (u p : string) : gmap string value :=
  {[ "username" := VStr u; "password" := VStr p ]}.

(** A request object with a username and nothing else. *)
Definition only_username : gmap string value :=
  {[ "username" := VStr "alice" ]}.

Definition credentials (u p : string) : request :=
  Request (VDict (fields u p)).

(** ** Other servers, other tables *)

(** ASCII lower case, the folding of a case-insensitive collation. *)
Definition lower (c : Ascii.ascii) : Ascii.ascii :=
  let n := Ascii.nat_of_ascii c in
  if ((65 <=? n) && (n <=? 90))%nat then Ascii.ascii_of_nat (n + 32) else c.

Fixpoint lowercase (s : string) : string :=
  match s with
  | EmptyString => EmptyString
  | String c s' => String (lower c) (lowercase s')
  end.

(** A server that compares strings without regard to case. *)
Definition sql_eq_ci (v a : value) : bool :=
  match v, a with
  | VStr x, VStr y => String.eqb (lowercase x) (lowercase y)
  | VInt x, VInt y => Z.eqb x y
  | _, _ => false
  end.

(** A world with no cursor handed out yet, whose server compares with
    [eq] and whose [users] table has the columns [cols]. *)
Definition hosting (eq : value → value → bool) (cols : list string)
    (records : list row) : world :=
  World (Database {[ "users" := Table cols records ]} eq) [] [].

(** A [users] table declared with the password before the username. *)
Definition swapped_columns : list string :=
  ["id"; "password"; "username"; "role"; "assignedCity"].

Definition alice_swapped : row :=
  [VInt 1; VStr "secret"; VStr "alice"; VStr "admin"; VStr "Lisbon"].

(** A [users] table with no role and no city. *)
Definition narrow_columns : list string := ["id"; "username"; "password"].

Definition alice_narrow : row := [VInt 1; VStr "alice"; VStr "secret"].

(** A request object with one field more than the handler reads. *)
Definition fields_and_role (u p : string) : gmap string value :=
  <[ "role" := VStr "admin" ]> (fields u p).

(** ** Start-up: the upload folder

    Lines 17 and 18 run once, when the module is loaded.  The working
    directory is a map from entry names to what the entry is. *)
Inductive node : Type := File | Dir.

Inductive os_error : Type := FileExistsError.

Definition UPLOAD_FOLDER : string := "uploads".

(** [os.makedirs(name, exist_ok=...)] for a name of one component: the
    directory is created when nothing has the name; a directory of that
    name is accepted only with [exist_ok]; any other entry of that name
    raises. *)
Definition makedirs (name : string) (exist_ok : bool) (fs : gmap string node)
    : os_error + gmap string node :=
  match fs !! name with
  | None => inr (<[name := Dir]> fs)
  | Some Dir => if exist_ok then inr fs else inl FileExistsError
  | Some File => inl FileExistsError
  end.

(** Line 18: [os.makedirs(UPLOAD_FOLDER, exist_ok=True)]. *)
Definition startup (fs : gmap string node) : os_error + gmap string node :=
  makedirs UPLOAD_FOLDER true fs.

(** * Proofs *)

(** Membership in, and distinctness of, a list written out. *)
Ltac listed := rewrite ?elem_of_cons, ?elem_of_nil; auto 10.
Ltac distinct :=
  repeat (apply NoDup_cons; split;
          [rewrite ?elem_of_cons, ?elem_of_nil; intuition discriminate|]);
  apply NoDup_nil_2.

(** ** Stepping the cursor operations *)

Section cursor_steps.
Variables (d : database) (cs : list cursor_state) (st : list (string * list value)).

Lemma lookup_own_cursor (c : cursor_state) : (cs ++ [c])%list !! length cs = Some c.
Proof. by rewrite list_lookup_middle. Qed.

Lemma insert_own_cursor (c c' : cursor_state) :
  <[length cs := c']> (cs ++ [c])%list = (cs ++ [c'])%list.
Proof.
  rewrite insert_app_r_alt by lia.
  by replace (length cs - length cs)%nat with 0%nat by lia.
Qed.

Lemma execute_own rs sql args :
  execute (length cs) sql args (World d (cs ++ [Cursor rs false]) st) =
  match run_statement d sql args with
  | inr rs' => Returns tt (World d (cs ++ [Cursor rs' false]) (st ++ [(sql, args)]))
  | inl e => Raises e (World d (cs ++ [Cursor rs false]) (st ++ [(sql, args)]))
  end.
Proof.
  unfold execute; simpl. rewrite lookup_own_cursor.
  destruct (run_statement d sql args); [done|].
  by rewrite insert_own_cursor.
Qed.

Lemma fetchone_own rs :
  fetchone (length cs) (World d (cs ++ [Cursor rs false]) st) =
  Returns (head rs) (World d (cs ++ [Cursor (tail rs) false]) st).
Proof.
  unfold fetchone; simpl. rewrite lookup_own_cursor.
  destruct rs as [|r rs]; [done|]. by rewrite insert_own_cursor.
Qed.

Lemma close_own c :
  close (length cs) (World d (cs ++ [c]) st) =
  Returns tt (World d (cs ++ [Cursor [] true]) st).
Proof.
  unfold close; simpl. rewrite lookup_own_cursor.
  by rewrite insert_own_cursor.
Qed.
End cursor_steps.

(** [login] unfolded along its control flow. *)
Lemma login_eq (req : request) (w : world) :
  login req w =
  let opened := World (db w) (cursors w ++ [Cursor [] false]) (statements w) in
  match json req with
  | VDict d =>
      match d !! "username" with
      | None => Raises (KeyError "username") opened
      | Some u =>
          match d !! "password" with
          | None => Raises (KeyError "password") opened
          | Some p =>
              let sent := (statements w ++ [(login_sql, [u; p])])%list in
              match run_statement (db w) login_sql [u; p] with
              | inl e => Raises e (World (db w) (cursors w ++ [Cursor [] false]) sent)
              | inr rs => respond (head rs) (World (db w) (cursors w ++ [Cursor [] true]) sent)
              end
          end
      end
  | _ => Raises TypeError opened
  end.
Proof.
  destruct w as [d cs st], req as [creds].
  unfold login, mbind, handler_bind, cursor; simpl.
  destruct creds as [|b|z|s|l|m]; try done.
  simpl. destruct (m !! "username") as [u|]; [|done].
  simpl. destruct (m !! "password") as [p|]; [|done].
  simpl. rewrite execute_own.
  destruct (run_statement d login_sql [u; p]) as [e|rs]; [done|].
  rewrite fetchone_own, close_own. done.
Qed.

(** ** The statement under the declared schema *)

Lemma schema_indexes (t : table) :
  take 5 (columns t) = users_columns →
  column_index "username" (columns t) = Some 1%nat ∧
  column_index "password" (columns t) = Some 2%nat.
Proof.
  unfold users_columns. destruct (columns t) as [|a [|b [|c [|e [|f l]]]]]; try done.
  simpl. intros [= -> -> -> -> ->]. done.
Qed.

Lemma run_login_statement (d : database) (t : table) (u p : value) :
  tables d !! "users" = Some t → users_schema t →
  run_statement d login_sql [u; p] = inr (List.filter (matches d u p) (rows t)).
Proof.
  intros Ht [Hcols _]. unfold run_statement. rewrite String.eqb_refl, Ht.
  unfold select_where. by destruct (schema_indexes t Hcols) as [-> ->].
Qed.

Lemma schema_row (t : table) (r : row) :
  users_schema t → r ∈ rows t →
  ∃ c0 c1 c2 c3 c4 rest, r = c0 :: c1 :: c2 :: c3 :: c4 :: rest.
Proof.
  intros [Hcols Hrows] Hr.
  rewrite Forall_forall in Hrows. specialize (Hrows r Hr).
  assert (length (take 5 (columns t)) = 5%nat) as Hlen by by rewrite Hcols.
  rewrite length_take in Hlen.
  destruct r as [|c0 [|c1 [|c2 [|c3 [|c4 rest]]]]]; simpl in Hrows; try lia.
  by exists c0, c1, c2, c3, c4, rest.
Qed.

Lemma respond_none (w : world) : respond None w = Returns (VDict ∅, 401) w.
Proof. done. Qed.

Lemma respond_profile (r : row) (m : gmap string value) (w : world) :
  profile r = Some m → respond (Some r) w = Returns (VDict m, 200) w.
Proof.
  destruct r as [|c0 [|c1 [|c2 [|c3 [|c4 rest]]]]]; try done.
  by intros [= <-].
Qed.

Lemma login_run (w : world) (t : table) (d : gmap string value) (u p : value) :
  tables (db w) !! "users" = Some t → users_schema t →
  d !! "username" = Some u → d !! "password" = Some p →
  login (Request (VDict d)) w =
  respond (head (List.filter (matches (db w) u p) (rows t)))
    (World (db w) (cursors w ++ [Cursor [] true]) (statements w ++ [(login_sql, [u; p])])).
Proof.
  intros Ht Hs Hu Hp. rewrite login_eq. simpl. rewrite Hu, Hp.
  by rewrite (run_login_statement _ t).
Qed.

(** ** The first row of a filtered scan *)

Section first_match.
Context {A : Type} (f : A → bool).

Lemma head_filter_none (l : list A) :
  head (List.filter f l) = None ↔ ∀ x, x ∈ l → f x = false.
Proof.
  induction l as [|a l IH]; simpl.
  - split; [|done]. intros _ x Hx. by apply elem_of_nil in Hx.
  - destruct (f a) eqn:Ha; simpl.
    + split; [done|]. intros H. specialize (H a (list_elem_of_here _ _)). congruence.
    + rewrite IH. split.
      * intros H x [->|Hx]%elem_of_cons; auto.
      * intros H x Hx. apply H. by apply list_elem_of_further.
Qed.

Lemma head_filter_some (l : list A) (x : A) :
  head (List.filter f l) = Some x →
  ∃ pre post, l = (pre ++ x :: post)%list ∧ f x = true ∧ ∀ y, y ∈ pre → f y = false.
Proof.
  induction l as [|a l IH]; simpl; [done|].
  destruct (f a) eqn:Ha; simpl.
  - intros [= ->]. exists [], l. repeat split; [done|]. intros y Hy. by apply elem_of_nil in Hy.
  - intros (pre & post & -> & Hx & Hpre)%IH. exists (a :: pre), post.
    repeat split; [done|]. intros y [->|Hy]%elem_of_cons; auto.
Qed.

Lemma head_filter_first (pre post : list A) (x : A) :
  (∀ y, y ∈ pre → f y = false) → f x = true →
  head (List.filter f (pre ++ x :: post)) = Some x.
Proof.
  intros Hpre Hx. induction pre as [|a pre IH]; simpl.
  - by rewrite Hx.
  - rewrite (Hpre a) by apply list_elem_of_here.
    apply IH. intros y Hy. apply Hpre. by apply list_elem_of_further.
Qed.
End first_match.

(** ** Literal comparison and unique usernames *)

Lemma matches_literal (d : database) (u p : string) (r : row) :
  literal_eq d →
  matches d (VStr u) (VStr p) r = true ↔
  r !! 1%nat = Some (VStr u) ∧ r !! 2%nat = Some (VStr p).
Proof.
  intros Hlit. unfold matches, holds. rewrite andb_true_iff.
  destruct (r !! 1%nat) as [v1|], (r !! 2%nat) as [v2|];
    split; intros [E1 E2]; simplify_eq;
    try apply Hlit in E1; try apply Hlit in E2; simplify_eq; try done.
  split; by apply Hlit.
Qed.

Lemma unique_username_row (t : table) (r r' : row) :
  unique_usernames t → r ∈ rows t → r' ∈ rows t →
  r !! 1%nat = r' !! 1%nat → r = r'.
Proof.
  unfold unique_usernames. generalize (rows t) as l.
  induction l as [|a l IH]; simpl; intros Hnd Hr Hr' E.
  - by apply elem_of_nil in Hr.
  - apply NoDup_cons in Hnd as [Ha Hl].
    apply elem_of_cons in Hr as [->|Hr]; apply elem_of_cons in Hr' as [->|Hr']; auto.
    + exfalso. apply Ha. rewrite E. apply list_elem_of_fmap. by exists r'.
    + exfalso. apply Ha. rewrite <- E. apply list_elem_of_fmap. by exists r.
Qed.

Lemma login_first_match (w : world) (t : table) (d : gmap string value)
    (u p : string) (pre post : list row) (r : row) :
  tables (db w) !! "users" = Some t → users_schema t → literal_eq (db w) →
  d !! "username" = Some (VStr u) → d !! "password" = Some (VStr p) →
  rows t = (pre ++ r :: post)%list →
  (∀ y, y ∈ pre → ¬ (y !! 1%nat = Some (VStr u) ∧ y !! 2%nat = Some (VStr p))) →
  r !! 1%nat = Some (VStr u) → r !! 2%nat = Some (VStr p) →
  ∃ m, profile r = Some m ∧
       login (Request (VDict d)) w =
       Returns (VDict m, 200)
         (World (db w) (cursors w ++ [Cursor [] true])
                (statements w ++ [(login_sql, [VStr u; VStr p])])).
Proof.
  intros Ht Hs Hlit Hu Hp Hrows Hpre Hr1 Hr2.
  rewrite (login_run w t d (VStr u) (VStr p)) by done.
  rewrite Hrows, (head_filter_first _ pre post r).
  - destruct (schema_row t r Hs) as (c0 & c1 & c2 & c3 & c4 & rest & ->).
    { rewrite Hrows, elem_of_app, elem_of_cons. auto. }
    eexists. split; [done|]. by apply respond_profile.
  - intros y Hy. apply not_true_iff_false. rewrite matches_literal by done. auto.
  - by apply matches_literal.
Qed.

Lemma login_unique_match (w : world) (t : table) (d : gmap string value)
    (u p : string) (r : row) :
  tables (db w) !! "users" = Some t → users_schema t → literal_eq (db w) →
  unique_usernames t →
  d !! "username" = Some (VStr u) → d !! "password" = Some (VStr p) →
  r ∈ rows t → r !! 1%nat = Some (VStr u) → r !! 2%nat = Some (VStr p) →
  ∃ m, profile r = Some m ∧
       login (Request (VDict d)) w =
       Returns (VDict m, 200)
         (World (db w) (cursors w ++ [Cursor [] true])
                (statements w ++ [(login_sql, [VStr u; VStr p])])).
Proof.
  intros Ht Hs Hlit Hnd Hu Hp Hr Hr1 Hr2.
  destruct (head (List.filter (matches (db w) (VStr u) (VStr p)) (rows t)))
    as [r0|] eqn:Hhd.
  - apply head_filter_some in Hhd as (pre & post & Hrows & Hm & Hpre).
    apply matches_literal in Hm as [Hm1 Hm2]; [|done].
    assert (r0 = r) as ->.
    { apply (unique_username_row t); [done| |done|congruence].
      rewrite Hrows, elem_of_app, elem_of_cons. auto. }
    apply (login_first_match w t d u p pre post r); try done.
    intros y Hy Hy'. apply (matches_literal (db w)) in Hy'; [|done].
    rewrite (Hpre y Hy) in Hy'. done.
  - exfalso. rewrite head_filter_none in Hhd. specialize (Hhd r Hr).
    apply not_true_iff_false in Hhd. apply Hhd. by apply matches_literal.
Qed.

Lemma binary_literal (d : database) : sql_eq d = sql_eq_binary → literal_eq d.
Proof.
  intros E v s. rewrite E. destruct v; simpl; try (split; [done|congruence]).
  rewrite String.eqb_eq. split; congruence.
Qed.

Lemma serving_schema (records : list row) :
  Forall (λ r : row, length r = 5%nat) records →
  users_schema (Table users_columns records).
Proof. intros H. split; [done|]. exact H. Qed.

(** ** Running the handler *)

(** The three requests of the spec's scenario, and two malformed bodies. *)
Example run_alice_secret :
  reply (login (credentials "alice" "secret") idle) =
    Some (VDict {[ "id" := VInt 1; "username" := VStr "alice";
                   "role" := VStr "admin"; "assignedCity" := VStr "Lisbon" ]}, 200).
Proof. reflexivity. Qed.

Example run_alice_wrong :
  reply (login (credentials "alice" "wrong") idle) = Some (VDict ∅, 401).
Proof. reflexivity. Qed.

Example run_bob_x :
  reply (login (credentials "bob" "x") idle) = Some (VDict ∅, 401).
Proof. reflexivity. Qed.

Example run_empty_object :
  login (Request (VDict ∅)) idle =
    Raises (KeyError "username") (World (db idle) [Cursor [] false] []).
Proof. reflexivity. Qed.

Example run_list_body :
  fault (login (Request (VList [VStr "alice"; VStr "secret"])) idle) = Some TypeError.
Proof. reflexivity. Qed.

Example run_world_after :
  final (login (credentials "alice" "secret") idle) =
    World (db idle) [Cursor [] true]
      [(login_sql, [VStr "alice"; VStr "secret"])].
Proof. reflexivity. Qed.

(** * The claims *)

(** C1. Whenever the store holds a record whose username is [u] and whose
    password is [p] (usernames being unique, the server comparing
    literally, the table laid out as declared), a request carrying [u] and
    [p] is answered with status 200 and a JSON object with exactly the
    fields id, username, role, assignedCity, taken from columns 0, 1, 3
    and 4 of that record. *)
Theorem login_returns_profile (w : world) (t : table) (d : gmap string value)
    (u p : string) (r : row) :
  tables (db w) !! "users" = Some t → users_schema t → literal_eq (db w) →
  unique_usernames t →
  d !! "username" = Some (VStr u) → d !! "password" = Some (VStr p) →
  r ∈ rows t → r !! 1%nat = Some (VStr u) → r !! 2%nat = Some (VStr p) →
  ∃ id role city,
    r !! 0%nat = Some id ∧ r !! 3%nat = Some role ∧ r !! 4%nat = Some city ∧
    reply (login (Request (VDict d)) w) =
      Some (VDict {[ "id" := id; "username" := VStr u;
                     "role" := role; "assignedCity" := city ]}, 200).
Proof.
  intros Ht Hs Hlit Hnd Hu Hp Hr Hr1 Hr2.
  destruct (login_unique_match w t d u p r) as (m & Hm & ->); try done.
  destruct (schema_row t r Hs Hr) as (c0 & c1 & c2 & c3 & c4 & rest & ->).
  simpl in *. simplify_eq. exists c0, c3, c4.
  injection Hm as <-. done.
Qed.

(** The scenario of the spec: alice logs in with her password. *)
Lemma login_returns_profile_alice :
  reply (login (credentials "alice" "secret") idle) =
    Some (VDict {[ "id" := VInt 1; "username" := VStr "alice";
                   "role" := VStr "admin"; "assignedCity" := VStr "Lisbon" ]}, 200).
Proof.
  assert (users_schema (Table users_columns [alice; bob])) as Hs
    by (apply serving_schema; repeat constructor).
  assert (literal_eq (db idle)) as Hlit by by apply binary_literal.
  assert (unique_usernames (Table users_columns [alice; bob])) as Hnd
    by (unfold unique_usernames; simpl; distinct).
  assert (alice ∈ [alice; bob]) as Hin by listed.
  destruct (login_returns_profile idle (Table users_columns [alice; bob])
              (fields "alice" "secret") "alice" "secret" alice
              eq_refl Hs Hlit Hnd eq_refl eq_refl Hin eq_refl eq_refl)
    as (id & role & city & E0 & E3 & E4 & E).
  injection E0 as <-. injection E3 as <-. injection E4 as <-. exact E.
Defined.

(** C2. A request that carries a username and a password matching no
    stored record is answered with status 401 and the empty JSON object
    as its body. *)
Theorem login_rejects_unmatched (w : world) (t : table) (d : gmap string value)
    (u p : string) :
  tables (db w) !! "users" = Some t → users_schema t → literal_eq (db w) →
  d !! "username" = Some (VStr u) → d !! "password" = Some (VStr p) →
  (∀ r, r ∈ rows t → ¬ (r !! 1%nat = Some (VStr u) ∧ r !! 2%nat = Some (VStr p))) →
  reply (login (Request (VDict d)) w) = Some (VDict ∅, 401).
Proof.
  intros Ht Hs Hlit Hu Hp Hno.
  rewrite (login_run w t d (VStr u) (VStr p)) by done.
  replace (head _) with (@None row); [done|].
  symmetry. apply head_filter_none. intros r Hr.
  apply not_true_iff_false. rewrite matches_literal by done. by apply Hno.
Qed.

(** The scenario of the spec: alice's username with a wrong password. *)
Lemma login_rejects_unmatched_wrong_password :
  reply (login (credentials "alice" "wrong") idle) = Some (VDict ∅, 401).
Proof.
  assert (users_schema (Table users_columns [alice; bob])) as Hs
    by (apply serving_schema; repeat constructor).
  assert (literal_eq (db idle)) as Hlit by by apply binary_literal.
  apply (login_rejects_unmatched idle (Table users_columns [alice; bob])
           (fields "alice" "wrong") "alice" "wrong"
           eq_refl Hs Hlit eq_refl eq_refl).
  intros r Hr [_ H2]. simpl in Hr.
  rewrite !elem_of_cons, elem_of_nil in Hr.
  destruct Hr as [->|[->|[]]]; discriminate H2.
Defined.

Lemma profile_username (r : row) (m : gmap string value) :
  profile r = Some m → m !! "username" = r !! 1%nat.
Proof.
  destruct r as [|c0 [|c1 [|c2 [|c3 [|c4 rest]]]]]; try done.
  by intros [= <-].
Qed.

(** C3. With unique usernames, logging in with the credentials of one
    stored record answers with the profile of that record, whose username
    and password are the ones supplied, and with the profile of no other
    record. *)
Theorem login_no_cross_account (w : world) (t : table) (d : gmap string value)
    (u p : string) (ra rb : row) :
  tables (db w) !! "users" = Some t → users_schema t → literal_eq (db w) →
  unique_usernames t →
  d !! "username" = Some (VStr u) → d !! "password" = Some (VStr p) →
  ra ∈ rows t → rb ∈ rows t → ra ≠ rb →
  ra !! 1%nat = Some (VStr u) → ra !! 2%nat = Some (VStr p) →
  ∃ m, reply (login (Request (VDict d)) w) = Some (VDict m, 200) ∧
       profile ra = Some m ∧ profile rb ≠ Some m.
Proof.
  intros Ht Hs Hlit Hnd Hu Hp Ha Hb Hab Ha1 Ha2.
  destruct (login_unique_match w t d u p ra) as (m & Hm & ->); try done.
  exists m. repeat split; [done|]. intros Hm'. apply Hab.
  apply (unique_username_row t); try done.
  by rewrite <- (profile_username ra m), <- (profile_username rb m).
Qed.

(** Alice's credentials return alice's profile, not bob's. *)
Lemma login_no_cross_account_alice_bob :
  ∃ m, reply (login (credentials "alice" "secret") idle) = Some (VDict m, 200) ∧
       profile alice = Some m ∧ profile bob ≠ Some m.
Proof.
  assert (users_schema (Table users_columns [alice; bob])) as Hs
    by (apply serving_schema; repeat constructor).
  assert (literal_eq (db idle)) as Hlit by by apply binary_literal.
  assert (unique_usernames (Table users_columns [alice; bob])) as Hnd
    by (unfold unique_usernames; simpl; distinct).
  assert (alice ∈ [alice; bob]) as Ha by listed.
  assert (bob ∈ [alice; bob]) as Hb by listed.
  assert (alice ≠ bob) as Hab by discriminate.
  exact (login_no_cross_account idle (Table users_columns [alice; bob])
           (fields "alice" "secret") "alice" "secret" alice bob
           eq_refl Hs Hlit Hnd eq_refl eq_refl Ha Hb Hab eq_refl eq_refl).
Defined.

(** C4. When the request object lacks the key username or the key
    password, the handler returns no response at all: the subscript raises
    [KeyError] for the first missing key and nothing catches it. *)
Theorem login_missing_key_faults (w : world) (d : gmap string value) :
  d !! "username" = None ∨ d !! "password" = None →
  reply (login (Request (VDict d)) w) = None ∧
  fault (login (Request (VDict d)) w) =
    Some (KeyError (match d !! "username" with
                    | None => "username"
                    | Some _ => "password"
                    end)).
Proof.
  intros H. rewrite login_eq. simpl.
  destruct (d !! "username") as [u|]; [|done].
  destruct H as [H|H]; [done|]. by rewrite H.
Qed.

(** A body with a username and no password. *)
Lemma login_missing_key_faults_no_password :
  reply (login (Request (VDict only_username)) idle) = None ∧
  fault (login (Request (VDict only_username)) idle) = Some (KeyError "password").
Proof.
  exact (login_missing_key_faults idle only_username (or_intror eq_refl)).
Defined.

(** C5 as the spec words it fails: with an empty request object the
    subscript on line 26 raises after line 24 opened the cursor, and the
    handler is left without the cursor having been closed. *)
Lemma login_leaves_cursor_open :
  fault (login (Request (VDict ∅)) idle) = Some (KeyError "username") ∧
  cursors (final (login (Request (VDict ∅)) idle)) = [Cursor [] false] ∧
  ¬ released idle (final (login (Request (VDict ∅)) idle)).
Proof. repeat split. discriminate. Qed.

(** C5, amended. The handler opens exactly one cursor.  Whenever it gets
    past line 27, that is, whenever it returns a response or raises from
    the tuple subscripts of lines 32 to 35, the cursor has been closed;
    when a subscript on the request or the statement raises, the error
    leaves the handler with the cursor still open. *)
Theorem login_cursor_release (w : world) (req : request) :
  match login req w with
  | Returns _ w' => released w w'
  | Raises IndexError w' => released w w'
  | Raises _ w' => leaked w w'
  end.
Proof.
  assert (∀ st, leaked w (World (db w) (cursors w ++ [Cursor [] false]) st))
    as Hopen by (intros st; by eexists).
  rewrite login_eq. simpl.
  destruct (json req) as [|b|z|s|l|d]; try apply Hopen.
  destruct (d !! "username") as [u|]; [|apply Hopen].
  destruct (d !! "password") as [p|]; [|apply Hopen].
  unfold run_statement. rewrite String.eqb_refl.
  destruct (tables (db w) !! "users") as [t|]; [|apply Hopen].
  unfold select_where.
  destruct (column_index "username" (columns t)); [|apply Hopen].
  destruct (column_index "password" (columns t)); [|apply Hopen].
  destruct (head _) as [[|c0 [|c1 [|c2 [|c3 [|c4 rest]]]]]|]; done.
Qed.

(** C6. The statement text that reaches the server is the constant
    [login_sql]; the supplied strings travel beside it as bound values,
    whatever characters they hold.  With a server that compares
    literally, the login succeeds exactly when some record has [u] in its
    username column and [p] in its password column. *)
Theorem login_literal_match (w : world) (t : table) (d : gmap string value)
    (u p : string) :
  tables (db w) !! "users" = Some t → users_schema t → literal_eq (db w) →
  d !! "username" = Some (VStr u) → d !! "password" = Some (VStr p) →
  statements (final (login (Request (VDict d)) w)) =
    (statements w ++ [(login_sql, [VStr u; VStr p])])%list ∧
  ((∃ body, reply (login (Request (VDict d)) w) = Some (body, 200)) ↔
   (∃ r, r ∈ rows t ∧ r !! 1%nat = Some (VStr u) ∧ r !! 2%nat = Some (VStr p))).
Proof.
  intros Ht Hs Hlit Hu Hp.
  rewrite (login_run w t d (VStr u) (VStr p)) by done.
  destruct (head _) as [r|] eqn:Hhd.
  - apply head_filter_some in Hhd as (pre & post & Hrows & Hm & _).
    assert (r ∈ rows t) as Hr.
    { rewrite Hrows, elem_of_app, elem_of_cons. auto. }
    destruct (schema_row t r Hs Hr) as (c0 & c1 & c2 & c3 & c4 & rest & ->).
    apply matches_literal in Hm as [Hm1 Hm2]; [|done].
    simpl. split; [done|]. split; eauto.
  - simpl. split; [done|]. split.
    + intros [body [=]].
    + intros (r & Hr & Hr1 & Hr2). rewrite head_filter_none in Hhd.
      specialize (Hhd r Hr). apply not_true_iff_false in Hhd.
      exfalso. apply Hhd. by apply matches_literal.
Qed.

(** Quotes, a comment marker and a wildcard are compared as they are. *)
Lemma login_literal_match_metacharacters :
  statements (final (login (credentials "alice' -- " "%") idle)) =
    [(login_sql, [VStr "alice' -- "; VStr "%"])] ∧
  ((∃ body, reply (login (credentials "alice' -- " "%") idle) = Some (body, 200)) ↔
   (∃ r, r ∈ [alice; bob] ∧
         r !! 1%nat = Some (VStr "alice' -- ") ∧ r !! 2%nat = Some (VStr "%"))).
Proof.
  assert (users_schema (Table users_columns [alice; bob])) as Hs
    by (apply serving_schema; repeat constructor).
  assert (literal_eq (db idle)) as Hlit by by apply binary_literal.
  exact (login_literal_match idle (Table users_columns [alice; bob])
           (fields "alice' -- " "%") "alice' -- " "%"
           eq_refl Hs Hlit eq_refl eq_refl).
Defined.

(** C7. The answer is built from the first record, in the order in which
    the server scans the table, that carries the supplied username and
    password; records after it, matching or not, play no part, so among
    duplicates the scan order alone decides. *)
Theorem login_first_of_duplicates (w : world) (t : table) (d : gmap string value)
    (u p : string) (pre post : list row) (r : row) :
  tables (db w) !! "users" = Some t → users_schema t → literal_eq (db w) →
  d !! "username" = Some (VStr u) → d !! "password" = Some (VStr p) →
  rows t = (pre ++ r :: post)%list →
  (∀ y, y ∈ pre → ¬ (y !! 1%nat = Some (VStr u) ∧ y !! 2%nat = Some (VStr p))) →
  r !! 1%nat = Some (VStr u) → r !! 2%nat = Some (VStr p) →
  ∃ m, profile r = Some m ∧
       reply (login (Request (VDict d)) w) = Some (VDict m, 200).
Proof.
  intros Ht Hs Hlit Hu Hp Hrows Hpre Hr1 Hr2.
  destruct (login_first_match w t d u p pre post r) as (m & Hm & ->); try done.
  by exists m.
Qed.

(** Two records with alice's credentials: each scan order answers with
    the record it meets first. *)
Lemma login_first_of_duplicates_either_order :
  (∃ m, profile alice = Some m ∧
        reply (login (credentials "alice" "secret") (serving [alice; alice_twin])) =
          Some (VDict m, 200)) ∧
  (∃ m, profile alice_twin = Some m ∧
        reply (login (credentials "alice" "secret") (serving [alice_twin; alice])) =
          Some (VDict m, 200)).
Proof.
  assert (∀ a b, literal_eq (db (serving [a; b]))) as Hlit
    by (intros a b; by apply binary_literal).
  assert (∀ y : row, y ∈ @nil row →
            ¬ (y !! 1%nat = Some (VStr "alice") ∧ y !! 2%nat = Some (VStr "secret")))
    as Hpre by (intros y Hy; by apply elem_of_nil in Hy).
  split.
  - assert (users_schema (Table users_columns [alice; alice_twin])) as Hs
      by (apply serving_schema; repeat constructor).
    exact (login_first_of_duplicates (serving [alice; alice_twin])
             (Table users_columns [alice; alice_twin])
             (fields "alice" "secret") "alice" "secret" [] [alice_twin] alice
             eq_refl Hs (Hlit _ _) eq_refl eq_refl eq_refl Hpre eq_refl eq_refl).
  - assert (users_schema (Table users_columns [alice_twin; alice])) as Hs
      by (apply serving_schema; repeat constructor).
    exact (login_first_of_duplicates (serving [alice_twin; alice])
             (Table users_columns [alice_twin; alice])
             (fields "alice" "secret") "alice" "secret" [] [alice] alice_twin
             eq_refl Hs (Hlit _ _) eq_refl eq_refl eq_refl Hpre eq_refl eq_refl).
Defined.

(** ** What the answer depends on *)

Lemma respond_final (user : option row) (w : world) :
  final (respond user w) = w.
Proof. by destruct user as [[|c0 [|c1 [|c2 [|c3 [|c4 rest]]]]]|]. Qed.

Lemma respond_any_world (user : option row) (w w' : world) :
  reply (respond user w) = reply (respond user w') ∧
  fault (respond user w) = fault (respond user w').
Proof. by destruct user as [[|c0 [|c1 [|c2 [|c3 [|c4 rest]]]]]|]. Qed.

Lemma login_keeps_db (w : world) (req : request) :
  db (final (login req w)) = db w.
Proof.
  rewrite login_eq. simpl.
  destruct (json req) as [|b|z|s|l|d]; try done.
  destruct (d !! "username") as [u|]; [|done].
  destruct (d !! "password") as [p|]; [|done].
  destruct (run_statement _ _ _) as [e|rs]; [done|].
  by rewrite respond_final.
Qed.

(** C8. The database the handler leaves behind is the one it found, on
    every path, faults included; and an invocation that answers, with 200
    or with 401, has sent the server exactly one statement, the SELECT of
    [login_sql]. *)
Theorem login_read_only (w : world) (req : request) :
  db (final (login req w)) = db w ∧
  (∀ resp, reply (login req w) = Some resp →
     ∃ u p, statements (final (login req w)) =
              (statements w ++ [(login_sql, [u; p])])%list).
Proof.
  split; [apply login_keeps_db|].
  intros resp. rewrite login_eq. simpl.
  destruct (json req) as [|b|z|s|l|d]; try done.
  destruct (d !! "username") as [u|]; [|done].
  destruct (d !! "password") as [p|]; [|done].
  destruct (run_statement _ _ _) as [e|rs]; [done|].
  intros _. exists u, p. by rewrite respond_final.
Qed.

(** Alice's login on a fresh world: same database, one statement. *)
Lemma login_read_only_alice :
  db (final (login (credentials "alice" "secret") idle)) = db idle ∧
  ∃ u p, statements (final (login (credentials "alice" "secret") idle)) =
           ([] ++ [(login_sql, [u; p])])%list.
Proof.
  split.
  - exact (proj1 (login_read_only idle (credentials "alice" "secret"))).
  - exact (proj2 (login_read_only idle (credentials "alice" "secret")) _ eq_refl).
Defined.

(** C9. A response is either 401 with the empty object, or 200 with an
    object whose fields are exactly id, username, role and assignedCity,
    filled from columns 0, 1, 3 and 4 of a stored record; column 2, the
    password, has no part in it: the same record with any other value in
    column 2 has the same projection. *)
Theorem login_withholds_password (w : world) (req : request)
    (body : value) (st : Z) :
  reply (login req w) = Some (body, st) →
  (st = 401 ∧ body = VDict ∅) ∨
  (st = 200 ∧
   ∃ t r c0 c1 c3 c4,
     tables (db w) !! "users" = Some t ∧ r ∈ rows t ∧
     r !! 0%nat = Some c0 ∧ r !! 1%nat = Some c1 ∧
     r !! 3%nat = Some c3 ∧ r !! 4%nat = Some c4 ∧
     body = VDict {[ "id" := c0; "username" := c1;
                     "role" := c3; "assignedCity" := c4 ]} ∧
     ∀ v, profile (<[2%nat := v]> r) = profile r).
Proof.
  rewrite login_eq. simpl.
  destruct (json req) as [|b|z|s|l|d]; try done.
  destruct (d !! "username") as [u|]; [|done].
  destruct (d !! "password") as [p|]; [|done].
  unfold run_statement. rewrite String.eqb_refl.
  destruct (tables (db w) !! "users") as [t|]; [|done].
  unfold select_where.
  destruct (column_index "username" (columns t)) as [i1|]; [|done].
  destruct (column_index "password" (columns t)) as [i2|]; [|done].
  destruct (head _) as [r|] eqn:Hhd.
  - apply head_filter_some in Hhd as (pre & post & Hrows & _ & _).
    destruct r as [|c0 [|c1 [|c2 [|c3 [|c4 rest]]]]]; try done.
    { intros [= <- <-]. by left. }
    intros [= <- <-]. right. split; [done|].
    exists t, (c0 :: c1 :: c2 :: c3 :: c4 :: rest), c0, c1, c3, c4.
    repeat split; try done.
    rewrite Hrows, elem_of_app, elem_of_cons. auto.
  - intros [= <- <-]. by left.
Qed.

(** Alice's answer, read field by field. *)
Lemma login_withholds_password_alice :
  (200 = 401 ∧
   VDict {[ "id" := VInt 1; "username" := VStr "alice";
            "role" := VStr "admin"; "assignedCity" := VStr "Lisbon" ]} = VDict ∅) ∨
  (200 = 200 ∧
   ∃ t r c0 c1 c3 c4,
     tables (db idle) !! "users" = Some t ∧ r ∈ rows t ∧
     r !! 0%nat = Some c0 ∧ r !! 1%nat = Some c1 ∧
     r !! 3%nat = Some c3 ∧ r !! 4%nat = Some c4 ∧
     VDict {[ "id" := VInt 1; "username" := VStr "alice";
              "role" := VStr "admin"; "assignedCity" := VStr "Lisbon" ]} =
     VDict {[ "id" := c0; "username" := c1; "role" := c3; "assignedCity" := c4 ]} ∧
     ∀ v, profile (<[2%nat := v]> r) = profile r).
Proof.
  exact (login_withholds_password idle (credentials "alice" "secret") _ _ eq_refl).
Defined.

(** C10. The answer is a function of the database and the request alone:
    two invocations with the same request against the same database give
    the same status and body, or the same fault, whatever cursors and
    statements came before; in particular a second invocation answers as
    the first did. *)
Theorem login_deterministic (w1 w2 : world) (req : request) :
  db w1 = db w2 →
  reply (login req w1) = reply (login req w2) ∧
  fault (login req w1) = fault (login req w2) ∧
  reply (login req (final (login req w1))) = reply (login req w1).
Proof.
  assert (∀ w w', db w = db w' →
            reply (login req w) = reply (login req w') ∧
            fault (login req w) = fault (login req w')) as Hsame.
  { intros w w' E. rewrite !login_eq. simpl. rewrite E.
    destruct (json req) as [|b|z|s|l|d]; try done.
    destruct (d !! "username") as [u|]; [|done].
    destruct (d !! "password") as [p|]; [|done].
    destruct (run_statement _ _ _) as [e|rs]; [done|].
    apply respond_any_world. }
  intros E. destruct (Hsame w1 w2 E) as [Hr Hf]. repeat split; try done.
  apply Hsame, login_keeps_db.
Qed.

(** A fresh world and the world a first login left behind. *)
Lemma login_deterministic_twice :
  reply (login (credentials "alice" "secret") idle) =
    reply (login (credentials "alice" "secret")
             (final (login (credentials "bob" "x") idle))) ∧
  fault (login (credentials "alice" "secret") idle) =
    fault (login (credentials "alice" "secret")
             (final (login (credentials "bob" "x") idle))) ∧
  reply (login (credentials "alice" "secret")
           (final (login (credentials "alice" "secret") idle))) =
    reply (login (credentials "alice" "secret") idle).
Proof.
  exact (login_deterministic idle (final (login (credentials "bob" "x") idle))
           (credentials "alice" "secret") eq_refl).
Defined.


(** * Further properties of the handler *)

(** ** The statement under any declaration of the table *)

Lemma login_run_at (w : world) (t : table) (d : gmap string value)
    (u p : value) (i j : nat) :
  tables (db w) !! "users" = Some t →
  column_index "username" (columns t) = Some i →
  column_index "password" (columns t) = Some j →
  d !! "username" = Some u → d !! "password" = Some p →
  login (Request (VDict d)) w =
  respond
    (head (List.filter
             (λ r, holds (sql_eq (db w)) r i u && holds (sql_eq (db w)) r j p)
             (rows t)))
    (World (db w) (cursors w ++ [Cursor [] true]) (statements w ++ [(login_sql, [u; p])])).
Proof.
  intros Ht Hi Hj Hu Hp. rewrite login_eq. simpl. rewrite Hu, Hp.
  unfold run_statement. rewrite String.eqb_refl, Ht.
  unfold select_where. by rewrite Hi, Hj.
Qed.

Lemma run_statement_errors (d : database) (sql : string) (args : list value) (e : exn) :
  run_statement d sql args = inl e → e = ProgrammingError ∨ e = OperationalError.
Proof.
  unfold run_statement, select_where.
  repeat case_match; intros [= <-]; auto.
Qed.

(** A body that is not a JSON object (null, a list, a string, a number)
    makes the subscript of line 26 raise [TypeError]: nothing is sent to
    the server and the cursor of line 24 stays open. *)
Theorem login_non_object_body (w : world) (req : request) :
  (∀ d, json req ≠ VDict d) →
  login req w =
    Raises TypeError (World (db w) (cursors w ++ [Cursor [] false]) (statements w)).
Proof.
  intros Hno. rewrite login_eq. simpl.
  destruct (json req) as [|b|z|s|l|d]; try done.
  by destruct (Hno d).
Qed.

Lemma login_non_object_body_null :
  login (Request VNone) idle =
    Raises TypeError (World (db idle) ([] ++ [Cursor [] false]) []).
Proof.
  apply (login_non_object_body idle (Request VNone)). discriminate.
Defined.

(** The handler reads the fields username and password and nothing else:
    two request objects that agree on these two keys, present or absent,
    are handled alike, down to the world they leave. *)
Theorem login_ignores_other_fields (w : world) (d1 d2 : gmap string value) :
  d1 !! "username" = d2 !! "username" →
  d1 !! "password" = d2 !! "password" →
  login (Request (VDict d1)) w = login (Request (VDict d2)) w.
Proof.
  intros Hu Hp. rewrite !login_eq. simpl. by rewrite Hu, Hp.
Qed.

Lemma login_ignores_other_fields_role :
  login (Request (VDict (fields "alice" "secret"))) idle =
  login (Request (VDict (fields_and_role "alice" "secret"))) idle.
Proof.
  exact (login_ignores_other_fields idle (fields "alice" "secret")
           (fields_and_role "alice" "secret") eq_refl eq_refl).
Defined.

(** On every path the handler sends at most one statement; its text is
    the constant of line 25, and the values bound to it are the body's
    username and password, in that order, whatever their type. *)
Theorem login_sends_constant_text (w : world) (req : request) :
  statements (final (login req w)) = statements w ∨
  ∃ d u p,
    json req = VDict d ∧ d !! "username" = Some u ∧ d !! "password" = Some p ∧
    statements (final (login req w)) = (statements w ++ [(login_sql, [u; p])])%list.
Proof.
  rewrite login_eq. simpl.
  destruct (json req) as [|b|z|s|l|d]; try by left.
  destruct (d !! "username") as [u|] eqn:Hu; [|by left].
  destruct (d !! "password") as [p|] eqn:Hp; [|by left].
  right. exists d, u, p. repeat split; try done.
  destruct (run_statement _ _ _) as [e|rs]; [done|].
  by rewrite respond_final.
Qed.

(** A fault raised by the request body, [TypeError] or [KeyError], leaves
    the handler before anything has been sent to the server. *)
Theorem login_body_fault_sends_nothing (w : world) (req : request) (e : exn) :
  fault (login req w) = Some e →
  e = TypeError ∨ (∃ k, e = KeyError k) →
  statements (final (login req w)) = statements w.
Proof.
  rewrite login_eq. simpl.
  destruct (json req) as [|b|z|s|l|d]; try done.
  destruct (d !! "username") as [u|]; [|done].
  destruct (d !! "password") as [p|]; [|done].
  destruct (run_statement _ _ _) as [e'|rs] eqn:Hrun.
  - simpl. intros [= <-] He. apply run_statement_errors in Hrun.
    destruct Hrun as [-> | ->], He as [He|[k He]]; discriminate.
  - destruct (head rs) as [[|c0 [|c1 [|c2 [|c3 [|c4 rest]]]]]|]; simpl;
      try done; intros [= <-] [He|[k He]]; discriminate.
Qed.

Lemma login_body_fault_sends_nothing_empty :
  statements (final (login (Request (VDict ∅)) idle)) = statements idle.
Proof.
  apply (login_body_fault_sends_nothing idle (Request (VDict ∅)) (KeyError "username")).
  - reflexivity.
  - right. by exists "username".
Defined.



Example run_ignoring_case :
  reply (login (credentials "ALICE" "secret")
           (hosting sql_eq_ci users_columns [alice; bob])) =
    Some (VDict {[ "id" := VInt 1; "username" := VStr "alice";
                   "role" := VStr "admin"; "assignedCity" := VStr "Lisbon" ]}, 200).
Proof. reflexivity. Qed.

(** The WHERE clause finds its columns by name, the answer takes them by
    position: wherever the table declares username and password, the
    fields id, username, role and assignedCity of the answer are the
    first, second, fourth and fifth value of the first accepted row. *)
Theorem login_projection_positional (w : world) (t : table)
    (d : gmap string value) (u p : value) (i j : nat)
    (pre post : list row) (c0 c1 c2 c3 c4 : value) (rest : row) :
  let r := c0 :: c1 :: c2 :: c3 :: c4 :: rest in
  tables (db w) !! "users" = Some t →
  column_index "username" (columns t) = Some i →
  column_index "password" (columns t) = Some j →
  d !! "username" = Some u → d !! "password" = Some p →
  rows t = (pre ++ r :: post)%list →
  (∀ y, y ∈ pre →
        holds (sql_eq (db w)) y i u && holds (sql_eq (db w)) y j p = false) →
  holds (sql_eq (db w)) r i u = true → holds (sql_eq (db w)) r j p = true →
  reply (login (Request (VDict d)) w) =
    Some (VDict {[ "id" := c0; "username" := c1;
                   "role" := c3; "assignedCity" := c4 ]}, 200).
Proof.
  intros r Ht Hi Hj Hu Hp Hrows Hpre Hri Hrj.
  rewrite (login_run_at w t d u p i j) by done.
  rewrite Hrows, (head_filter_first _ pre post r); [done|done|].
  by rewrite Hri, Hrj.
Qed.

(** With the password declared second, the answer carries it as the
    username. *)
Lemma login_projection_positional_swapped :
  reply (login (credentials "alice" "secret")
           (hosting sql_eq_binary swapped_columns [alice_swapped])) =
    Some (VDict {[ "id" := VInt 1; "username" := VStr "secret";
                   "role" := VStr "admin"; "assignedCity" := VStr "Lisbon" ]}, 200).
Proof.
  assert (∀ y : row, y ∈ @nil row →
            holds sql_eq_binary y 2 (VStr "alice") &&
            holds sql_eq_binary y 1 (VStr "secret") = false)
    as Hpre by (intros y Hy; by apply elem_of_nil in Hy).
  exact (login_projection_positional
           (hosting sql_eq_binary swapped_columns [alice_swapped])
           (Table swapped_columns [alice_swapped]) (fields "alice" "secret")
           (VStr "alice") (VStr "secret") 2 1 [] []
           (VInt 1) (VStr "secret") (VStr "alice") (VStr "admin") (VStr "Lisbon") []
           eq_refl eq_refl eq_refl eq_refl eq_refl eq_refl Hpre eq_refl eq_refl).
Defined.

(** The subscripts of lines 32 to 35 reach the fifth value of the row: when
    the first accepted row has fewer than five, the handler raises
    [IndexError] instead of answering, after it has sent its statement and
    closed its cursor. *)
Theorem login_short_row_faults (w : world) (t : table) (d : gmap string value)
    (u p : value) (i j : nat) (pre post : list row) (r : row) :
  tables (db w) !! "users" = Some t →
  column_index "username" (columns t) = Some i →
  column_index "password" (columns t) = Some j →
  d !! "username" = Some u → d !! "password" = Some p →
  rows t = (pre ++ r :: post)%list →
  (∀ y, y ∈ pre →
        holds (sql_eq (db w)) y i u && holds (sql_eq (db w)) y j p = false) →
  holds (sql_eq (db w)) r i u = true → holds (sql_eq (db w)) r j p = true →
  (length r < 5)%nat →
  login (Request (VDict d)) w =
    Raises IndexError
      (World (db w) (cursors w ++ [Cursor [] true])
             (statements w ++ [(login_sql, [u; p])])).
Proof.
  intros Ht Hi Hj Hu Hp Hrows Hpre Hri Hrj Hlen.
  rewrite (login_run_at w t d u p i j) by done.
  rewrite Hrows, (head_filter_first _ pre post r); [|done|by rewrite Hri, Hrj].
  destruct r as [|c0 [|c1 [|c2 [|c3 [|c4 rest]]]]]; try done.
  simpl in Hlen. lia.
Qed.

(** A table of three columns: the right password crashes the handler. *)
Lemma login_short_row_faults_narrow :
  login (credentials "alice" "secret")
    (hosting sql_eq_binary narrow_columns [alice_narrow]) =
    Raises IndexError
      (World (db (hosting sql_eq_binary narrow_columns [alice_narrow]))
             ([] ++ [Cursor [] true])
             ([] ++ [(login_sql, [VStr "alice"; VStr "secret"])])).
Proof.
  assert (∀ y : row, y ∈ @nil row →
            holds sql_eq_binary y 1 (VStr "alice") &&
            holds sql_eq_binary y 2 (VStr "secret") = false)
    as Hpre by (intros y Hy; by apply elem_of_nil in Hy).
  assert (length alice_narrow < 5)%nat as Hlen by (simpl; lia).
  exact (login_short_row_faults
           (hosting sql_eq_binary narrow_columns [alice_narrow])
           (Table narrow_columns [alice_narrow]) (fields "alice" "secret")
           (VStr "alice") (VStr "secret") 1 2 [] [] alice_narrow
           eq_refl eq_refl eq_refl eq_refl eq_refl eq_refl Hpre eq_refl eq_refl Hlen).
Defined.


(** ** Start-up *)

(** Line 18 succeeds exactly when no regular file is in the way; it then
    leaves a directory named uploads, touches no other entry, and running
    it again on what it left changes nothing: the server can be restarted. *)
Theorem upload_folder_restart_safe (fs fs' : gmap string node) :
  startup fs = inr fs' →
  fs !! UPLOAD_FOLDER ≠ Some File ∧
  fs' !! UPLOAD_FOLDER = Some Dir ∧
  (∀ name, name ≠ UPLOAD_FOLDER → fs' !! name = fs !! name) ∧
  startup fs' = inr fs'.
Proof.
  unfold startup, makedirs.
  destruct (fs !! UPLOAD_FOLDER) as [[|]|] eqn:Hfs; intros [= <-].
  - repeat split; try done. by rewrite Hfs.
  - repeat split; try done.
    + apply lookup_insert_eq.
    + intros name Hne. by apply lookup_insert_ne.
    + by rewrite lookup_insert_eq.
Qed.

Lemma upload_folder_restart_safe_fresh :
  (∅ : gmap string node) !! UPLOAD_FOLDER ≠ Some File ∧
  ({[ UPLOAD_FOLDER := Dir ]} : gmap string node) !! UPLOAD_FOLDER = Some Dir ∧
  (∀ name, name ≠ UPLOAD_FOLDER →
     ({[ UPLOAD_FOLDER := Dir ]} : gmap string node) !! name =
     (∅ : gmap string node) !! name) ∧
  startup {[ UPLOAD_FOLDER := Dir ]} = inr {[ UPLOAD_FOLDER := Dir ]}.
Proof.
  exact (upload_folder_restart_safe ∅ {[ UPLOAD_FOLDER := Dir ]} eq_refl).
Defined.

(** A regular file named uploads stops the start-up, whatever else the
    directory holds; nothing is created. *)
Theorem upload_folder_blocked_by_file (fs : gmap string node) :
  startup fs = inl FileExistsError ↔ fs !! UPLOAD_FOLDER = Some File.
Proof.
  unfold startup, makedirs.
  destruct (fs !! UPLOAD_FOLDER) as [[|]|]; split; done.
Qed.
